(** * read_from_excel.py: a shallow embedding and its properties

    The script reads one cell of a spreadsheet, chosen by the current
    month, wraps it into a three-field dictionary, serialises the dictionary
    with [json.dumps] and hands the text to an MQTT client whose
    [on_connect] callback publishes it and disconnects.

    The embedding follows the script function by function:
    [read_value_from_file], [on_connect], [send_mqtt_message], [main].
    Whatever the script gets from outside (the clock, the home directory,
    the spreadsheet, the broker, the user's Ctrl-C) is a field of [world];
    whatever it does to the outside (printing, MQTT calls) is appended to a
    trace of [action]s. *)

From Stdlib Require Import ZArith List String Ascii Bool Lia.
From Stdlib Require Import Decimal DecimalString DecimalFacts DecimalPos DecimalZ.
Import ListNotations.

Local Open Scope string_scope.
Local Open Scope Z_scope.

(** ** Python values *)

(** The values a spreadsheet cell can hold in this model: integers
    (unbounded, as Python's [int]) and text. A numeric cell is taken to
    reach the script as a Python integer; floating-point cells, empty
    cells (NaN) and the fixed-width scalars of NumPy are outside the
    model. *)
Inductive value : Type :=
| VInt (z : Z)
| VStr (s : string).

Inductive exn : Type :=
| KeyboardInterrupt
| FileNotFoundError
| IndexError
| TypeError
| ConnectionRefusedError.

(** The outcome of a call: it returns, it raises, or it never returns
    ([Blocked]: [loop_forever] waiting for a broker that stays silent). *)
Inductive outcome (A : Type) : Type :=
| Ok (a : A)
| Raise (e : exn)
| Blocked.
Arguments Ok {A} a.
Arguments Raise {A} e.
Arguments Blocked {A}.

Definition exn_eqb (a b : exn) : bool :=
  match a, b with
  | KeyboardInterrupt, KeyboardInterrupt
  | FileNotFoundError, FileNotFoundError
  | IndexError, IndexError
  | TypeError, TypeError
  | ConnectionRefusedError, ConnectionRefusedError => true
  | _, _ => false
  end.

(** [a - b] on Python values: defined on two integers, [TypeError] when an
    operand is a string. *)
Definition py_sub (a b : value) : outcome value :=
  match a, b with
  | VInt x, VInt y => Ok (VInt (x - y))
  | _, _ => Raise TypeError
  end.

(** [str(z)] for an integer: decimal digits, a leading minus sign for a
    negative number. *)
Definition str_int (z : Z) : string := NilZero.string_of_int (Z.to_int z).

(** [str(v)]. *)
Definition py_str (v : value) : string :=
  match v with
  | VInt z => str_int z
  | VStr s => s
  end.

(** ** json.dumps *)

Definition dquote : ascii := "034"%char.
Definition backslash : ascii := "092"%char.

Definition hex_digit (n : nat) : ascii :=
  nth n (list_ascii_of_string "0123456789abcdef") "0"%char.

(** One character of a string literal, as [json.dumps] writes it with
    [ensure_ascii]: quote and backslash are escaped, the usual control
    characters have their short escapes, every other character outside
    space..tilde is written as a four-digit \u escape. A character is one
    code point below 256. *)
Definition escape_char (c : ascii) : string :=
  let n := nat_of_ascii c in
  if Ascii.eqb c dquote then String backslash (String dquote "")
  else if Ascii.eqb c backslash then String backslash (String backslash "")
  else if Nat.eqb n 8 then String backslash "b"
  else if Nat.eqb n 9 then String backslash "t"
  else if Nat.eqb n 10 then String backslash "n"
  else if Nat.eqb n 12 then String backslash "f"
  else if Nat.eqb n 13 then String backslash "r"
  else if (Nat.leb 32 n && Nat.leb n 126)%bool then String c ""
  else String backslash
         (String "u" (String "0" (String "0"
            (String (hex_digit (Nat.div n 16))
               (String (hex_digit (Nat.modulo n 16)) ""))))).

Fixpoint escape_body (s : string) : string :=
  match s with
  | EmptyString => ""
  | String c s' => escape_char c ++ escape_body s'
  end.

Definition encode_string (s : string) : string :=
  String dquote (escape_body s ++ String dquote "").

Definition encode_value (v : value) : string :=
  match v with
  | VInt z => str_int z
  | VStr s => encode_string s
  end.

(** A Python dict with string keys, in insertion order. *)
Definition dict : Type := list (string * value).


Definition encode_item (kv : string * value) : string :=
  encode_string (fst kv) ++ ": " ++ encode_value (snd kv).

Fixpoint join (sep : string) (l : list string) : string :=
  match l with
  | [] => ""
  | [x] => x
  | x :: l' => x ++ sep ++ join sep l'
  end.

(** [json.dumps(d)] with its default separators: [", "] between items and
    [": "] between a key and its value. *)
Definition dumps (d : dict) : string :=
  "{" ++ join ", " (map encode_item d) ++ "}".

(** ** The message of send_mqtt_message *)

(** The dict literal of [send_mqtt_message]; evaluating its second entry
    raises [TypeError] for a value that is not a number. *)
Definition build_message (limit : Z) (v : value) : outcome dict :=
  match py_sub (VInt limit) v with
  | Ok left_ => Ok [("limit", VInt limit); ("left", left_); ("amount", v)]
  | Raise e => Raise e
  | Blocked => Blocked
  end.

(** ** Reading JSON back

    The inverse used to state the round trip: [json.loads] on the fragment
    of JSON that [dumps] writes, an object whose values are integers or
    strings. Anything else (floats, nested values, literals) is rejected. *)

Definition is_ws (c : ascii) : bool :=
  let n := nat_of_ascii c in
  (Nat.eqb n 32 || Nat.eqb n 9 || Nat.eqb n 10 || Nat.eqb n 13)%bool.

Fixpoint skip_ws (s : string) : string :=
  match s with
  | String c s' => if is_ws c then skip_ws s' else s
  | EmptyString => s
  end.

Definition is_digit (c : ascii) : bool :=
  let n := nat_of_ascii c in (Nat.leb 48 n && Nat.leb n 57)%bool.

(** The longest prefix of digits, and what follows it. *)
Fixpoint span_digits (s : string) : string * string :=
  match s with
  | String c s' =>
      if is_digit c then let (ds, rest) := span_digits s' in (String c ds, rest)
      else ("", s)
  | EmptyString => ("", "")
  end.

(** The digits of a JSON integer: at least one, no leading zero. *)
Definition parse_digits (ds : string) : option Z :=
  match ds with
  | EmptyString => None
  | String c (String _ _) =>
      if Ascii.eqb c "0" then None
      else option_map Z.of_uint (NilEmpty.uint_of_string ds)
  | _ => option_map Z.of_uint (NilEmpty.uint_of_string ds)
  end.

Definition parse_int (s : string) : option (Z * string) :=
  match s with
  | String c s' =>
      if Ascii.eqb c "-" then
        let (ds, rest) := span_digits s' in
        option_map (fun z => (- z, rest)) (parse_digits ds)
      else
        let (ds, rest) := span_digits s in
        option_map (fun z => (z, rest)) (parse_digits ds)
  | EmptyString => None
  end.

Definition hex_value (c : ascii) : option nat :=
  let n := nat_of_ascii c in
  if (Nat.leb 48 n && Nat.leb n 57)%bool then Some (n - 48)%nat
  else if (Nat.leb 97 n && Nat.leb n 102)%bool then Some (n - 87)%nat
  else if (Nat.leb 65 n && Nat.leb n 70)%bool then Some (n - 55)%nat
  else None.

(** The character of a \u escape, when its code point is below 256. *)
Definition unicode_escape (h1 h2 h3 h4 : ascii) : option ascii :=
  match hex_value h1, hex_value h2, hex_value h3, hex_value h4 with
  | Some a, Some b, Some c, Some d =>
      if (Nat.eqb a 0 && Nat.eqb b 0)%bool then Some (ascii_of_nat (16 * c + d))
      else None
  | _, _, _, _ => None
  end.

Definition simple_escape (e : ascii) : option ascii :=
  if Ascii.eqb e dquote then Some dquote
  else if Ascii.eqb e backslash then Some backslash
  else if Ascii.eqb e "/" then Some "/"%char
  else if Ascii.eqb e "b" then Some "008"%char
  else if Ascii.eqb e "t" then Some "009"%char
  else if Ascii.eqb e "n" then Some "010"%char
  else if Ascii.eqb e "f" then Some "012"%char
  else if Ascii.eqb e "r" then Some "013"%char
  else None.

Definition cons_fst (c : ascii) (r : option (string * string)) : option (string * string) :=
  match r with
  | Some (str, rest) => Some (String c str, rest)
  | None => None
  end.

(** The text of a string literal after its opening quote: the string it
    denotes and what follows the closing quote. *)
Fixpoint parse_string_body (s : string) : option (string * string) :=
  match s with
  | EmptyString => None
  | String c s' =>
      if Ascii.eqb c dquote then Some ("", s')
      else if Ascii.eqb c backslash then
        match s' with
        | String e s'' =>
            match simple_escape e with
            | Some ch => cons_fst ch (parse_string_body s'')
            | None =>
                if Ascii.eqb e "u" then
                  match s'' with
                  | String h1 (String h2 (String h3 (String h4 s3))) =>
                      match unicode_escape h1 h2 h3 h4 with
                      | Some ch => cons_fst ch (parse_string_body s3)
                      | None => None
                      end
                  | _ => None
                  end
                else None
            end
        | EmptyString => None
        end
      else if Nat.ltb (nat_of_ascii c) 32 then None
      else cons_fst c (parse_string_body s')
  end.

Definition parse_value (s : string) : option (value * string) :=
  match s with
  | String c s' =>
      if Ascii.eqb c dquote then
        match parse_string_body s' with
        | Some (str, rest) => Some (VStr str, rest)
        | None => None
        end
      else
        match parse_int s with
        | Some (z, rest) => Some (VInt z, rest)
        | None => None
        end
  | EmptyString => None
  end.

(** One [key: value] member, with the white space around it. *)
Definition parse_member (s : string) : option ((string * value) * string) :=
  match skip_ws s with
  | String c s1 =>
      if Ascii.eqb c dquote then
        match parse_string_body s1 with
        | Some (k, s2) =>
            match skip_ws s2 with
            | String c2 s3 =>
                if Ascii.eqb c2 ":" then
                  match parse_value (skip_ws s3) with
                  | Some (v, s4) => Some ((k, v), s4)
                  | None => None
                  end
                else None
            | EmptyString => None
            end
        | None => None
        end
      else None
  | EmptyString => None
  end.

(** What follows a member: a comma and more members, or the closing
    brace. The fuel bounds the number of members. *)
Fixpoint parse_members (fuel : nat) (s : string) : option (list (string * value) * string) :=
  match fuel with
  | O => None
  | S fuel' =>
      match skip_ws s with
      | String c s1 =>
          if Ascii.eqb c "}" then Some ([], s1)
          else if Ascii.eqb c "," then
            match parse_member s1 with
            | Some (kv, s2) =>
                match parse_members fuel' s2 with
                | Some (kvs, rest) => Some (kv :: kvs, rest)
                | None => None
                end
            | None => None
            end
          else None
      | EmptyString => None
      end
  end.

(** [d[k] = v]: a key already present keeps its place and takes the new
    value, a new key goes to the end. *)
Fixpoint dict_set (d : dict) (k : string) (v : value) : dict :=
  match d with
  | [] => [(k, v)]
  | (k', v') :: d' => if String.eqb k' k then (k, v) :: d' else (k', v') :: dict_set d' k v
  end.

Definition dict_of_members (kvs : list (string * value)) : dict :=
  fold_left (fun d kv => dict_set d (fst kv) (snd kv)) kvs [].

Definition loads (s : string) : option dict :=
  match skip_ws s with
  | String c s1 =>
      if Ascii.eqb c "{" then
        match skip_ws s1 with
        | String c1 s2 =>
            if Ascii.eqb c1 "}" then
              match skip_ws s2 with
              | EmptyString => Some []
              | _ => None
              end
            else
              match parse_member s1 with
              | Some (kv, s3) =>
                  match parse_members (String.length s) s3 with
                  | Some (kvs, rest) =>
                      match skip_ws rest with
                      | EmptyString => Some (dict_of_members (kv :: kvs))
                      | _ => None
                      end
                  | None => None
                  end
              | None => None
              end
        | EmptyString => None
        end
      else None
  | EmptyString => None
  end.

(** ** The outside world *)

(** A DataFrame by position: its rows, each a list of cells. *)
Definition dataframe : Type := list (list value).

(** Python indexing of a sequence: a negative index counts from the end,
    an index outside the sequence raises [IndexError]. *)
Definition py_index {A : Type} (l : list A) (i : Z) : outcome A :=
  let n := Z.of_nat (List.length l) in
  let j := if i <? 0 then i + n else i in
  if (0 <=? j) && (j <? n) then
    match nth_error l (Z.to_nat j) with
    | Some x => Ok x
    | None => Raise IndexError
    end
  else Raise IndexError.

(** [df.iloc[r, c]]. *)
Definition iloc (df : dataframe) (r c : Z) : outcome value :=
  match py_index df r with
  | Ok row => py_index row c
  | Raise e => Raise e
  | Blocked => Blocked
  end.

(** The reason code the broker sends in its CONNACK: a number and the name
    it prints as; codes from 128 on signal a refused connection. *)
Record reason_code : Type := { rc_value : nat; rc_name : string }.

Definition is_failure (rc : reason_code) : bool := Nat.leb 128 (rc_value rc).

(** What the network loop of the client sees: the broker's answer to the
    connection request, or the loss of the connection (after which the
    loop connects again). *)
Inductive net_event : Type :=
| EvConnAck (rc : reason_code)
| EvConnLost.

Record world : Type := {
  now_month : Z;                                  (* datetime.now().month *)
  home_dir : string;                              (* os.path.expanduser of ~ *)
  excel_files : string -> option (list (list value));  (* the sheets on disk, by path *)
  broker_reachable : bool;                        (* does connect() get through *)
  net_events : list net_event;                    (* what loop_forever receives *)
  interrupt_at : option nat                       (* the step at which Ctrl-C arrives *)
}.

(** What the script does to the outside. [ConnAck] records the moment the
    loop receives the broker's answer. *)
Inductive action : Type :=
| Print (s : string)
| Connect (addr : string)
| ConnAck (rc : reason_code)
| Publish (topic payload : string)
| Disconnect.

Inductive conn_state : Type := CsNew | CsConnecting | CsConnected | CsDisconnecting.

(** The functions of the script that are installed as callbacks. *)
Inductive callback : Type := CbOnConnect.

(** The fields of the paho client the script touches. *)
Record client : Type := {
  cl_on_connect : option callback;
  cl_userdata : list string;
  cl_state : conn_state
}.

Record state : Type := {
  ticks : nat;             (* steps executed so far *)
  trace : list action;     (* actions so far, oldest first *)
  mqttc : client
}.

Definition new_client : client :=
  {| cl_on_connect := None; cl_userdata := []; cl_state := CsNew |}.

Definition init : state := {| ticks := 0; trace := []; mqttc := new_client |}.

(** ** The monad of the script: state, exceptions, blocking *)

Definition M (A : Type) : Type := state -> outcome A * state.

Definition ret {A : Type} (a : A) : M A := fun s => (Ok a, s).

Definition bind {A B : Type} (c : M A) (k : A -> M B) : M B :=
  fun s =>
    match c s with
    | (Ok a, s') => k a s'
    | (Raise e, s') => (Raise e, s')
    | (Blocked, s') => (Blocked, s')
    end.

Notation "x <- c ;; k" := (bind c (fun x => k))
  (at level 61, c at next level, right associativity).
Notation "c ;; k" := (bind c (fun _ => k))
  (at level 61, right associativity).

Definition lift {A : Type} (o : outcome A) : M A := fun s => (o, s).

Definition raise {A : Type} (e : exn) : M A := lift (Raise e).

(** [try: body except <exceptions matching catches>: handler]. *)
Definition try_except (body : M unit) (catches : exn -> bool) (handler : M unit) : M unit :=
  fun s =>
    match body s with
    | (Raise e, s') => if catches e then handler s' else (Raise e, s')
    | r => r
    end.

Definition emit (a : action) : M unit :=
  fun s => (Ok tt, {| ticks := ticks s; trace := (trace s ++ [a])%list; mqttc := mqttc s |}).

Definition get_client : M client := fun s => (Ok (mqttc s), s).

Definition set_client (c : client) : M unit :=
  fun s => (Ok tt, {| ticks := ticks s; trace := trace s; mqttc := c |}).

Definition opt_nat_eqb (o : option nat) (n : nat) : bool :=
  match o with
  | Some k => Nat.eqb k n
  | None => false
  end.

(** ** The script *)

Section Script.

Variable w : world.

(** One step of execution. A Ctrl-C that arrives at this step raises
    [KeyboardInterrupt] instead of the step. *)
Definition tick : M unit :=
  fun s =>
    let s' := {| ticks := S (ticks s); trace := trace s; mqttc := mqttc s |} in
    if opt_nat_eqb (interrupt_at w) (ticks s) then (Raise KeyboardInterrupt, s')
    else (Ok tt, s').

(** A statement of the script: one step, then its effect. *)
Definition stmt {A : Type} (c : M A) : M A := tick ;; c.

Definition print (s : string) : M unit := emit (Print s).

(** [pd.read_excel(path, header=h)]: the rows of the sheet; with
    [header=None] every row is data, with [header=h] row [h] names the
    columns and the data starts below it. *)
Definition read_excel (path : string) (header : option nat) : M dataframe :=
  match excel_files w path with
  | None => raise FileNotFoundError
  | Some rows =>
      ret (match header with
           | None => rows
           | Some h => skipn (S h) rows
           end)
  end.

Definition read_value_from_file (file_path : string) : M value :=
  current_month <- stmt (ret (now_month w)) ;;
  row_index <- stmt (ret (current_month - 1)) ;;
  column_index <- stmt (ret 5) ;;
  df <- stmt (read_excel file_path None) ;;
  stmt (lift (iloc df row_index column_index)).

(** [client.publish(topic, payload)]. *)
Definition publish (topic payload : string) : M unit := emit (Publish topic payload).

(** [client.disconnect()]: the loop stops once the client is disconnecting. *)
Definition disconnect : M unit :=
  emit Disconnect ;;
  c <- get_client ;;
  set_client {| cl_on_connect := cl_on_connect c;
                cl_userdata := cl_userdata c;
                cl_state := CsDisconnecting |}.

(** The callback. Its [client] argument is the client of the state; the
    arguments [flags] and [properties], which it never reads, are left out. *)
Definition on_connect (userdata : list string) (reason_code : reason_code) : M unit :=
  stmt (print ("Connected with result code " ++ rc_name reason_code)) ;;
  stmt (topic <- lift (py_index userdata 0) ;;
        payload <- lift (py_index userdata 1) ;;
        publish topic payload) ;;
  stmt (print "Message published") ;;
  stmt disconnect ;;
  stmt (print "Disconnected").

Definition run_callback (cb : option callback) (userdata : list string)
    (rc : reason_code) : M unit :=
  match cb with
  | Some CbOnConnect => on_connect userdata rc
  | None => ret tt
  end.

(** [mqttc.connect(addr)]: raises when the broker cannot be reached. *)
Definition connect (addr : string) : M unit :=
  if broker_reachable w then
    emit (Connect addr) ;;
    c <- get_client ;;
    set_client {| cl_on_connect := cl_on_connect c;
                  cl_userdata := cl_userdata c;
                  cl_state := CsConnecting |}
  else raise ConnectionRefusedError.

(** Nothing more arrives from the network: the loop waits for ever, unless
    the user's Ctrl-C is still to come. *)
Definition wait_forever : M unit :=
  fun s =>
    match interrupt_at w with
    | Some k =>
        if Nat.leb (ticks s) k then
          (Raise KeyboardInterrupt,
           {| ticks := S k; trace := trace s; mqttc := mqttc s |})
        else (Blocked, s)
    | None => (Blocked, s)
    end.

Definition mark_connected (rc : reason_code) : M unit :=
  c <- get_client ;;
  if is_failure rc then ret tt
  else set_client {| cl_on_connect := cl_on_connect c;
                     cl_userdata := cl_userdata c;
                     cl_state := CsConnected |}.

(** [mqttc.loop_forever()] on the events the network delivers: a CONNACK
    runs the installed [on_connect] callback with its reason code, whatever
    the code; after each event the loop returns if the client is
    disconnecting and goes on (connecting again after a loss) otherwise. *)
Fixpoint loop_forever (evs : list net_event) : M unit :=
  match evs with
  | [] => wait_forever
  | ev :: evs' =>
      tick ;;
      match ev with
      | EvConnAck rc =>
          emit (ConnAck rc) ;;
          mark_connected rc ;;
          c <- get_client ;;
          run_callback (cl_on_connect c) (cl_userdata c) rc
      | EvConnLost => ret tt
      end ;;
      c <- get_client ;;
      match cl_state c with
      | CsDisconnecting => ret tt
      | _ => loop_forever evs'
      end
  end.

Definition send_mqtt_message (v : value) : M unit :=
  limit <- stmt (ret 210) ;;
  message <- stmt (lift (build_message limit v)) ;;
  json_message <- stmt (ret (dumps message)) ;;
  broker_address <- stmt (ret "localhost") ;;
  mqtt_topic <- stmt (ret "car/bmw/fuel_load") ;;
  stmt (set_client new_client) ;;
  stmt (c <- get_client ;;
        set_client {| cl_on_connect := Some CbOnConnect;
                      cl_userdata := cl_userdata c;
                      cl_state := cl_state c |}) ;;
  stmt (c <- get_client ;;
        set_client {| cl_on_connect := cl_on_connect c;
                      cl_userdata := [mqtt_topic; json_message];
                      cl_state := cl_state c |}) ;;
  stmt (connect broker_address) ;;
  stmt (print "Connecting...") ;;
  stmt (loop_forever (net_events w)).

Definition is_keyboard_interrupt (e : exn) : bool := exn_eqb e KeyboardInterrupt.

(** The body of the [try] of [main]. *)
Definition main_try (file_path : string) : M unit :=
  v <- read_value_from_file file_path ;;
  stmt (print ("Read:  " ++ py_str v)) ;;
  send_mqtt_message v.

Definition main : M unit :=
  home_dir <- stmt (ret (home_dir w)) ;;
  file_path <- stmt (ret (home_dir ++ "/OneDrive/Gasolina.xlsx")) ;;
  stmt (print file_path) ;;
  try_except (main_try file_path) is_keyboard_interrupt
             (stmt (print "Process interrupted by user")).

End Script.

(** The path [main] reads in a world. *)
Definition file_path_of (w : world) : string := home_dir w ++ "/OneDrive/Gasolina.xlsx".

(** A run of the script in a world. *)
Definition run (w : world) : outcome unit * state := main w init.

(** ** Sample worlds *)

(** A sheet whose third row holds 120 in its sixth column. *)
Definition mar_sheet : list (list value) :=
  [ [VInt 0; VInt 0; VInt 0; VInt 0; VInt 0; VInt 10];
    [VInt 0; VInt 0; VInt 0; VInt 0; VInt 0; VInt 20];
    [VInt 0; VInt 0; VInt 0; VInt 0; VInt 0; VInt 120] ].

(** Two reason codes: the connection is accepted, the connection is refused. *)
Definition rc_success : reason_code := {| rc_value := 0; rc_name := "Success" |}.
Definition rc_not_authorized : reason_code := {| rc_value := 135; rc_name := "Not authorized" |}.

(** March, the sheet in place, a broker that accepts, no Ctrl-C. *)
Definition w0 : world :=
  {| now_month := 3; home_dir := "/home/u";
     excel_files := fun p => if String.eqb p "/home/u/OneDrive/Gasolina.xlsx" then Some mar_sheet else None;
     broker_reachable := true;
     net_events := [EvConnAck rc_success];
     interrupt_at := None |}.

(** ** The vocabulary of the properties *)



(** The actions on the MQTT client, printing left out. *)
Definition is_mqtt (a : action) : bool :=
  match a with
  | Print _ => false
  | _ => true
  end.

Definition mqtt_actions (tr : list action) : list action := filter is_mqtt tr.

(** The (topic, payload) pairs published, in order. *)
Fixpoint publishes (tr : list action) : list (string * string) :=
  match tr with
  | [] => []
  | Publish t p :: tr' => (t, p) :: publishes tr'
  | _ :: tr' => publishes tr'
  end.

(** The user's Ctrl-C has been delivered by the time of [s]. *)
Definition delivered (w : world) (s : state) : Prop :=
  match interrupt_at w with
  | Some k => (k < ticks s)%nat
  | None => False
  end.

Definition bump (s : state) : state :=
  {| ticks := S (ticks s); trace := trace s; mqttc := mqttc s |}.

(** What [read_value_from_file] can do: it touches neither the trace nor
    the client; it returns the cell at row [month - 1], column 5 of the
    sheet read without a header row, or raises what the lookup raises, or
    is interrupted. *)
Definition read_post (w : world) (path : string) (s : state)
    (r : outcome value * state) : Prop :=
  trace (snd r) = trace s /\ mqttc (snd r) = mqttc s /\
  (ticks s <= ticks (snd r))%nat /\
  match fst r with
  | Ok v => exists rows,
      excel_files w path = Some rows /\ iloc rows (now_month w - 1) 5 = Ok v
  | Raise KeyboardInterrupt => delivered w (snd r)
  | Raise FileNotFoundError => excel_files w path = None
  | Raise e => exists rows,
      excel_files w path = Some rows /\ iloc rows (now_month w - 1) 5 = Raise e
  | Blocked => False
  end.

(** [wp c Q s]: running [c] from [s] ends in a result that satisfies [Q]. *)
Definition wp {A : Type} (c : M A) (Q : outcome A * state -> Prop) (s : state) : Prop :=
  Q (c s).

(** The postcondition a continuation leaves for the computation before it. *)
Definition wp_then {A B : Type} (k : A -> M B) (Q : outcome B * state -> Prop)
    (r : outcome A * state) : Prop :=
  match r with
  | (Ok a, s') => wp (k a) Q s'
  | (Raise e, s') => Q (Raise e, s')
  | (Blocked, s') => Q (Blocked, s')
  end.

Definition log (a : action) (s : state) : state :=
  {| ticks := ticks s; trace := (trace s ++ [a])%list; mqttc := mqttc s |}.

Definition with_client (c : client) (s : state) : state :=
  {| ticks := ticks s; trace := trace s; mqttc := c |}.

(** [l] is an initial part of [full]. *)
Definition prefix_of {A : Type} (l full : list A) : Prop :=
  exists rest, (l ++ rest)%list = full.

(** The trace of [s'] is the trace of [s] followed by [l]. *)
Definition extends (s s' : state) (l : list action) : Prop :=
  trace s' = (trace s ++ l)%list.

(** What the callback does when the user data is [[t; m]]: it publishes
    [m] to [t] and disconnects, unless Ctrl-C cuts it short. *)
Definition on_connect_post (w : world) (t m : string) (s : state)
    (r : outcome unit * state) : Prop :=
  exists l, extends s (snd r) l /\
    (ticks s <= ticks (snd r))%nat /\
    cl_on_connect (mqttc (snd r)) = cl_on_connect (mqttc s) /\
    cl_userdata (mqttc (snd r)) = cl_userdata (mqttc s) /\
    prefix_of (mqtt_actions l) [Publish t m; Disconnect] /\
    match fst r with
    | Ok _ => mqtt_actions l = [Publish t m; Disconnect] /\
              cl_state (mqttc (snd r)) = CsDisconnecting
    | Raise e => e = KeyboardInterrupt /\ delivered w (snd r)
    | Blocked => False
    end.

(** The reason code of the first CONNACK among the events. *)
Fixpoint first_connack (evs : list net_event) : option reason_code :=
  match evs with
  | [] => None
  | EvConnAck rc :: _ => Some rc
  | EvConnLost :: evs' => first_connack evs'
  end.

(** The MQTT actions of a complete loop on [evs]. *)
Definition session (evs : list net_event) (t m : string) : list action :=
  match first_connack evs with
  | Some rc => [ConnAck rc; Publish t m; Disconnect]
  | None => []
  end.

Definition loop_post (w : world) (t m : string) (evs : list net_event) (s : state)
    (r : outcome unit * state) : Prop :=
  exists l, extends s (snd r) l /\
    (ticks s <= ticks (snd r))%nat /\
    prefix_of (mqtt_actions l) (session evs t m) /\
    match fst r with
    | Ok _ => mqtt_actions l = session evs t m /\ first_connack evs <> None
    | Raise e => e = KeyboardInterrupt /\ delivered w (snd r)
    | Blocked => first_connack evs = None /\
                 (interrupt_at w = None \/ delivered w (snd r))
    end.

(** The MQTT actions of a complete [send_mqtt_message], as the world
    determines them. *)
Definition send_expected (w : world) (v : value) : list action :=
  match build_message 210 v with
  | Ok msg =>
      if broker_reachable w then
        Connect "localhost" :: session (net_events w) "car/bmw/fuel_load" (dumps msg)
      else []
  | _ => []
  end.

Definition send_post (w : world) (v : value) (s : state)
    (r : outcome unit * state) : Prop :=
  exists l, extends s (snd r) l /\
    (ticks s <= ticks (snd r))%nat /\
    prefix_of (mqtt_actions l) (send_expected w v) /\
    match fst r with
    | Ok _ => mqtt_actions l = send_expected w v /\
              first_connack (net_events w) <> None /\
              broker_reachable w = true
    | Raise KeyboardInterrupt => delivered w (snd r)
    | Raise TypeError => build_message 210 v = Raise TypeError
    | Raise ConnectionRefusedError => broker_reachable w = false
    | Raise _ => False
    | Blocked => first_connack (net_events w) = None /\
                 (interrupt_at w = None \/ delivered w (snd r))
    end.

(** The MQTT actions of a complete run that reads [path], as the world
    determines them. *)
Definition expected (w : world) (path : string) : list action :=
  match excel_files w path with
  | Some rows =>
      match iloc rows (now_month w - 1) 5 with
      | Ok v => send_expected w v
      | _ => []
      end
  | None => []
  end.

(** The cell the run reads is [v]. *)
Definition reads (w : world) (path : string) (v : value) : Prop :=
  exists rows, excel_files w path = Some rows /\ iloc rows (now_month w - 1) 5 = Ok v.

Definition main_try_post (w : world) (path : string) (s : state)
    (r : outcome unit * state) : Prop :=
  exists l, extends s (snd r) l /\
    (ticks s <= ticks (snd r))%nat /\
    prefix_of (mqtt_actions l) (expected w path) /\
    match fst r with
    | Ok _ => exists v, reads w path v /\
              mqtt_actions l = send_expected w v /\
              first_connack (net_events w) <> None /\
              broker_reachable w = true
    | Raise KeyboardInterrupt => delivered w (snd r)
    | Raise FileNotFoundError => excel_files w path = None
    | Raise IndexError => exists rows,
        excel_files w path = Some rows /\
        iloc rows (now_month w - 1) 5 = Raise IndexError
    | Raise TypeError => exists v,
        reads w path v /\ build_message 210 v = Raise TypeError
    | Raise ConnectionRefusedError => exists v,
        reads w path v /\ broker_reachable w = false
    | Blocked => exists v, reads w path v /\
                 first_connack (net_events w) = None /\
                 (interrupt_at w = None \/ delivered w (snd r))
    end.

Definition interrupted_notice : action := Print "Process interrupted by user".

(** What a whole run can do. *)
Definition run_post (w : world) (r : outcome unit * state) : Prop :=
  let path := file_path_of w in
  let tr := trace (snd r) in
  prefix_of (mqtt_actions tr) (expected w path) /\
  match fst r with
  | Ok _ =>
      (exists v, reads w path v /\
                 mqtt_actions tr = send_expected w v /\
                 first_connack (net_events w) <> None /\
                 broker_reachable w = true) \/
      (delivered w (snd r) /\ exists tr', tr = (tr' ++ [interrupted_notice])%list)
  | Raise KeyboardInterrupt => exists k, interrupt_at w = Some k /\ (k < 3)%nat
  | Raise FileNotFoundError => excel_files w path = None
  | Raise IndexError => exists rows,
      excel_files w path = Some rows /\
      iloc rows (now_month w - 1) 5 = Raise IndexError
  | Raise TypeError => exists v,
      reads w path v /\ build_message 210 v = Raise TypeError
  | Raise ConnectionRefusedError => exists v,
      reads w path v /\ broker_reachable w = false
  | Blocked => exists v, reads w path v /\
               first_connack (net_events w) = None /\
               (interrupt_at w = None \/ delivered w (snd r))
  end.

(** A key or a string between double quotes. *)
Definition quoted (s : string) : string := String dquote (s ++ String dquote "").





(** The payload of the scenario as [json.dumps] writes it. *)
Definition march_spaced : string :=
  "{" ++ quoted "limit" ++ ": 210, " ++ quoted "left" ++ ": 90, "
      ++ quoted "amount" ++ ": 120}".

(** A world like [w0] whose broker refuses the connection after one lost
    attempt, and whose user has another home directory. *)
Definition w_refused : world :=
  {| now_month := 3; home_dir := "/root";
     excel_files := fun p => if String.eqb p "/root/OneDrive/Gasolina.xlsx"
                             then Some mar_sheet else None;
     broker_reachable := true;
     net_events := [EvConnLost; EvConnAck rc_not_authorized];
     interrupt_at := None |}.






(** The state in which the [try] of [main] starts. *)
Definition after_prelude (w : world) : state :=
  log (Print (file_path_of w)) (bump (bump (bump init))).

(** What [on_connect] leaves behind when nothing interrupts it. *)
Definition after_on_connect (rc : reason_code) (t m : string) (s : state) : state :=
  {| ticks := 5 + ticks s;
     trace := (trace s ++ [Print ("Connected with result code " ++ rc_name rc);
                           Publish t m;
                           Print "Message published";
                           Disconnect;
                           Print "Disconnected"])%list;
     mqttc := {| cl_on_connect := cl_on_connect (mqttc s);
                 cl_userdata := cl_userdata (mqttc s);
                 cl_state := CsDisconnecting |} |}.

(** ** Runs that nothing interrupts, and runs that end early *)




(** A Ctrl-C is scheduled and has not arrived by the time of [s]. *)
Definition pending (w : world) (s : state) : Prop :=
  match interrupt_at w with
  | Some k => (ticks s <= k)%nat
  | None => False
  end.

(** The run ended by itself or by the Ctrl-C, but neither blocked nor let
    the [KeyboardInterrupt] through. *)
Definition ends_or_pending (w : world) (A : Type) (r : outcome A * state) : Prop :=
  fst r = Raise KeyboardInterrupt \/ (fst r <> Blocked /\ pending w (snd r)).

(** A world like [w0] whose sheet is not on disk. *)
Definition w_missing : world :=
  {| now_month := 3; home_dir := "/home/u";
     excel_files := fun _ => None;
     broker_reachable := true;
     net_events := [EvConnAck rc_success];
     interrupt_at := None |}.



(** A world like [w0] whose broker accepts the connection and then stays
    silent, with a Ctrl-C or without. *)
Definition w_silent (i : option nat) : world :=
  {| now_month := 3; home_dir := "/home/u";
     excel_files := excel_files w0;
     broker_reachable := true;
     net_events := [EvConnLost; EvConnLost];
     interrupt_at := i |}.

(** [c] neither blocks nor loses a Ctrl-C that is still to come: from a
    state where it is pending, [c] raises [KeyboardInterrupt] or ends with
    the Ctrl-C still pending. *)
Definition keeps (w : world) {A : Type} (c : M A) : Prop :=
  forall s, pending w s -> ends_or_pending w A (c s).

(** * Properties *)

(** ** Examples *)

Example dumps_120 :
  option_map dumps (match build_message 210 (VInt 120) with Ok d => Some d | _ => None end)
  = Some ("{" ++ String dquote "limit" ++ String dquote ": 210, "
              ++ String dquote "left" ++ String dquote ": 90, "
              ++ String dquote "amount" ++ String dquote ": 120}").
Proof. reflexivity. Qed.

Example loads_120 :
  loads ("{" ++ String dquote "limit" ++ String dquote ":210 , "
             ++ String dquote "left" ++ String dquote ": -90,"
             ++ String dquote "aA\n" ++ String dquote ": 0}  ")
  = Some [("limit", VInt 210); ("left", VInt (-90));
          (String "a" (String "A" (String "010" "")), VInt 0)].
Proof. reflexivity. Qed.

Example loads_leading_zero :
  loads ("{" ++ String dquote "limit" ++ String dquote ": 0210}") = None.
Proof. reflexivity. Qed.

Example loads_dumps_strings :
  loads (dumps [("k", VStr (String "007" (String dquote "x/y"))); ("k2", VInt (-5)); ("k", VInt 1)])
  = Some [("k", VInt 1); ("k2", VInt (-5))].
Proof. reflexivity. Qed.

(** ** Strings *)




(** ** Decimal numerals *)







(** ** String literals *)




(** ** Objects *)









(** ** Running the script step by step *)

Lemma opt_nat_eqb_true (o : option nat) (n : nat) :
  opt_nat_eqb o n = true -> o = Some n.
Proof.
  destruct o as [k|]; simpl; [|discriminate].
  intros H. apply Nat.eqb_eq in H. now subst.
Qed.

Lemma opt_nat_eqb_delivered (w : world) (s s' : state) :
  delivered w s -> (ticks s <= ticks s')%nat ->
  opt_nat_eqb (interrupt_at w) (ticks s') = false.
Proof.
  unfold delivered. destruct (interrupt_at w) as [k|]; simpl; [|reflexivity].
  intros H1 H2. apply Nat.eqb_neq. lia.
Qed.

Lemma stmt_run {A : Type} (w : world) (c : M A) (s : state) :
  stmt w c s =
  if opt_nat_eqb (interrupt_at w) (ticks s) then (Raise KeyboardInterrupt, bump s)
  else c (bump s).
Proof.
  unfold stmt, bind, tick. fold (bump s).
  now destruct (opt_nat_eqb (interrupt_at w) (ticks s)).
Qed.

Lemma wp_bind {A B : Type} (c : M A) (k : A -> M B) Q s :
  wp c (wp_then k Q) s -> wp (bind c k) Q s.
Proof.
  unfold wp, wp_then, bind. destruct (c s) as [[a|e|] s']; auto.
Qed.

Lemma wp_ret {A : Type} (a : A) Q s : Q (Ok a, s) -> wp (ret a) Q s.
Proof. auto. Qed.

Lemma wp_lift {A : Type} (o : outcome A) Q s : Q (o, s) -> wp (lift o) Q s.
Proof. auto. Qed.

Lemma wp_emit (a : action) Q s : Q (Ok tt, log a s) -> wp (emit a) Q s.
Proof. auto. Qed.

Lemma wp_get_client Q s : Q (Ok (mqttc s), s) -> wp get_client Q s.
Proof. auto. Qed.

Lemma wp_set_client (c : client) Q s : Q (Ok tt, with_client c s) -> wp (set_client c) Q s.
Proof. auto. Qed.

Lemma hit_delivered (w : world) (s : state) :
  interrupt_at w = Some (ticks s) -> delivered w (bump s).
Proof. intros H. unfold delivered. rewrite H. simpl. lia. Qed.

Lemma wp_stmt {A : Type} (w : world) (c : M A) Q s :
  (interrupt_at w = Some (ticks s) -> Q (Raise KeyboardInterrupt, bump s)) ->
  wp c Q (bump s) ->
  wp (stmt w c) Q s.
Proof.
  unfold wp. intros H1 H2. rewrite stmt_run.
  destruct (opt_nat_eqb (interrupt_at w) (ticks s)) eqn:E; [|exact H2].
  apply H1. now apply opt_nat_eqb_true.
Qed.

Lemma wp_conseq {A : Type} (c : M A) (Q Q' : outcome A * state -> Prop) s :
  wp c Q s -> (forall r, Q r -> Q' r) -> wp c Q' s.
Proof. unfold wp. auto. Qed.

(** One step of symbolic execution; [leaf] closes the goals where the run
    ends. *)
Ltac wp_step leaf :=
  lazymatch goal with
  | |- wp (bind _ _) _ _ => apply wp_bind
  | |- wp (stmt _ _) _ _ =>
      apply wp_stmt;
      [ let D := fresh "D" in intros D; apply hit_delivered in D; cbn [wp_then]; leaf | ]
  | |- wp (ret _) _ _ => apply wp_ret; cbn [wp_then]
  | |- wp (lift _) _ _ => apply wp_lift; cbn [wp_then]
  | |- wp (emit _) _ _ => apply wp_emit; cbn [wp_then]
  | |- wp (print _) _ _ => apply wp_emit; cbn [wp_then]
  | |- wp (publish _ _) _ _ => apply wp_emit; cbn [wp_then]
  | |- wp get_client _ _ => apply wp_get_client; cbn [wp_then]
  | |- wp (set_client _) _ _ => apply wp_set_client; cbn [wp_then]
  end.

Lemma py_index_cases {A : Type} (l : list A) (i : Z) :
  (exists x, py_index l i = Ok x) \/ py_index l i = Raise IndexError.
Proof.
  unfold py_index.
  destruct ((0 <=? _) && _)%bool; [|now right].
  destruct (nth_error l _); [left; eauto | now right].
Qed.

Lemma iloc_cases (df : dataframe) (r c : Z) :
  (exists v, iloc df r c = Ok v) \/ iloc df r c = Raise IndexError.
Proof.
  unfold iloc. destruct (py_index_cases df r) as [[row ->]| ->]; [|now right].
  apply py_index_cases.
Qed.

Lemma read_value_from_file_spec (w : world) (path : string) (s : state) :
  read_post w path s (read_value_from_file w path s).
Proof.
  change (wp (read_value_from_file w path) (read_post w path s) s).
  unfold read_value_from_file.
  assert (L : forall s', delivered w s' -> trace s' = trace s -> mqttc s' = mqttc s ->
                         (ticks s <= ticks s')%nat ->
                         read_post w path s (Raise KeyboardInterrupt, s')).
  { intros s' D T C K. unfold read_post. simpl. auto. }
  repeat wp_step ltac:(apply L; auto; simpl; lia).
  unfold read_excel.
  destruct (excel_files w path) as [rows|] eqn:F.
  - wp_step idtac. wp_step ltac:(apply L; auto; simpl; lia).
    wp_step idtac.
    unfold read_post. simpl. repeat split; auto; try lia.
    destruct (iloc_cases rows (now_month w - 1) 5) as [[v I]|I]; rewrite I; eauto.
  - apply wp_lift. cbn [wp_then]. unfold read_post. simpl. repeat split; auto; lia.
Qed.

Lemma prefix_of_nil {A : Type} (full : list A) : prefix_of [] full.
Proof. now exists full. Qed.

Lemma prefix_of_refl {A : Type} (l : list A) : prefix_of l l.
Proof. exists []. apply List.app_nil_r. Qed.

Lemma prefix_of_cons {A : Type} (a : A) (l full : list A) :
  prefix_of l full -> prefix_of (a :: l) (a :: full).
Proof. intros [r <-]. now exists r. Qed.

Lemma prefix_of_nil_inv {A : Type} (l : list A) : prefix_of l [] -> l = [].
Proof. intros [r H]. now apply app_eq_nil in H. Qed.

Create HintDb trace.
#[local] Hint Resolve prefix_of_nil prefix_of_refl prefix_of_cons : trace.

Lemma mqtt_actions_app (l1 l2 : list action) :
  mqtt_actions (l1 ++ l2)%list = (mqtt_actions l1 ++ mqtt_actions l2)%list.
Proof. apply filter_app. Qed.

Ltac solve_extends :=
  unfold extends; cbn [fst snd trace bump log with_client];
  rewrite <- ?List.app_assoc;
  first [ reflexivity | symmetry; apply List.app_nil_r ].

Ltac splits := repeat match goal with |- _ /\ _ => split end.

Ltac leaf_with tac :=
  eexists; split; [solve_extends|];
  cbn [fst snd ticks mqttc bump log with_client cl_on_connect cl_userdata cl_state];
  cbn [mqtt_actions filter is_mqtt List.app];
  tac.

Lemma on_connect_spec (w : world) (t m : string) (rc : reason_code) (s : state) :
  on_connect_post w t m s (on_connect w [t; m] rc s).
Proof.
  change (wp (on_connect w [t; m] rc) (on_connect_post w t m s) s).
  unfold on_connect, disconnect.
  change (py_index [t; m] 0) with (Ok t).
  change (py_index [t; m] 1) with (Ok m).
  repeat wp_step ltac:(leaf_with ltac:(splits; eauto 6 with trace; lia)).
  leaf_with ltac:(splits; eauto with trace; lia).
Qed.

Lemma extends_trans (s s1 s2 : state) (l1 l2 : list action) :
  extends s s1 l1 -> extends s1 s2 l2 -> extends s s2 (l1 ++ l2)%list.
Proof. unfold extends. intros H1 H2. now rewrite H2, H1, List.app_assoc. Qed.

Lemma loop_forever_spec (w : world) (t m : string) (evs : list net_event) :
  forall s,
    cl_on_connect (mqttc s) = Some CbOnConnect ->
    cl_userdata (mqttc s) = [t; m] ->
    cl_state (mqttc s) <> CsDisconnecting ->
    loop_post w t m evs s (loop_forever w evs s).
Proof.
  induction evs as [|ev evs IH]; intros s Hcb Hud Hst.
  - cbn [loop_forever]. unfold wait_forever, loop_post, session. cbn [first_connack].
    destruct (interrupt_at w) as [k|] eqn:Ek.
    + destruct (Nat.leb (ticks s) k) eqn:Hk.
      * apply Nat.leb_le in Hk.
        exists []. cbn [fst snd]. splits; auto with trace.
        -- unfold extends. cbn [trace]. now rewrite List.app_nil_r.
        -- cbn [ticks]. lia.
        -- unfold delivered. rewrite Ek. cbn [ticks]. lia.
      * apply Nat.leb_gt in Hk.
        exists []. cbn [fst snd]. splits; auto with trace.
        -- unfold extends. now rewrite List.app_nil_r.
        -- right. unfold delivered. now rewrite Ek.
    + exists []. cbn [fst snd]. splits; auto with trace.
      unfold extends. now rewrite List.app_nil_r.
  - change (wp (loop_forever w (ev :: evs)) (loop_post w t m (ev :: evs) s) s).
    cbn [loop_forever].
    match goal with
    | |- wp (tick w ;; ?X) _ _ => change (tick w ;; X) with (stmt w X)
    end.
    apply wp_stmt.
    { intros D. apply hit_delivered in D.
      exists []. cbn [fst snd]. splits; auto with trace.
      - solve_extends.
      - cbn [ticks bump]. lia. }
    apply wp_bind. destruct ev as [rc|].
    + (* the broker answers *)
      apply wp_bind. apply wp_emit. cbn [wp_then].
      apply wp_bind. unfold mark_connected.
      apply wp_bind. apply wp_get_client. cbn [wp_then].
      set (s1 := log (ConnAck rc) (bump s)).
      assert (wp (c <- get_client;; run_callback w (cl_on_connect c) (cl_userdata c) rc)
                 (wp_then (fun _ : unit =>
                             c <- get_client;;
                             match cl_state c with
                             | CsDisconnecting => ret tt
                             | _ => loop_forever w evs
                             end)
                          (loop_post w t m (EvConnAck rc :: evs) s))
                 (if is_failure rc then s1
                  else with_client {| cl_on_connect := cl_on_connect (mqttc s1);
                                      cl_userdata := cl_userdata (mqttc s1);
                                      cl_state := CsConnected |} s1)) as G.
      { set (s2 := if is_failure rc then s1 else _).
        assert (Hcb2 : cl_on_connect (mqttc s2) = Some CbOnConnect)
          by (subst s2 s1; destruct (is_failure rc); exact Hcb).
        assert (Hud2 : cl_userdata (mqttc s2) = [t; m])
          by (subst s2 s1; destruct (is_failure rc); exact Hud).
        assert (Hex2 : extends s s2 [ConnAck rc])
          by (subst s2 s1; destruct (is_failure rc); solve_extends).
        assert (Htk2 : (ticks s <= ticks s2)%nat)
          by (subst s2 s1; destruct (is_failure rc); cbn; lia).
        clearbody s2. clear s1.
        apply wp_bind. apply wp_get_client. cbn [wp_then].
        rewrite Hcb2, Hud2. cbn [run_callback].
        apply (wp_conseq _ _ _ _ (on_connect_spec w t m rc s2)).
        intros [o s3] (l & Hex & Htk & Hcb3 & Hud3 & Hpre & Hout).
        cbn [fst snd] in *. unfold loop_post, session. cbn [first_connack].
        destruct o as [[]|e|]; cbn [wp_then].
        - destruct Hout as [Hl Hdis].
          apply wp_bind. apply wp_get_client. cbn [wp_then]. rewrite Hdis.
          apply wp_ret.
          exists ([ConnAck rc] ++ l)%list. cbn [fst snd]. splits.
          + eapply extends_trans; eauto.
          + lia.
          + rewrite mqtt_actions_app, Hl. apply prefix_of_refl.
          + now rewrite mqtt_actions_app, Hl.
          + discriminate.
        - destruct Hout as [-> Hd].
          exists ([ConnAck rc] ++ l)%list. cbn [fst snd]. splits; auto.
          + eapply extends_trans; eauto.
          + lia.
          + rewrite mqtt_actions_app. now apply prefix_of_cons.
        - contradiction. }
      destruct (is_failure rc); apply wp_ret + (apply wp_set_client); exact G.
    + (* the connection is lost: the loop goes on *)
      apply wp_ret. cbn [wp_then].
      apply wp_bind. apply wp_get_client. cbn [wp_then].
      cbn [mqttc bump].
      assert (G : wp (loop_forever w evs) (loop_post w t m (EvConnLost :: evs) s) (bump s)).
      { apply (wp_conseq _ _ _ _ (IH (bump s) Hcb Hud Hst)).
        intros [o s3] (l & Hex & Htk & Hpre & Hout).
        exists l. cbn [fst snd ticks bump] in *. splits; auto. lia. }
      destruct (cl_state (mqttc s)); try exact G. contradiction.
Qed.

Lemma build_message_cases (lim : Z) (v : value) :
  match v with
  | VInt z => build_message lim v
              = Ok [("limit", VInt lim); ("left", VInt (lim - z)); ("amount", VInt z)]
  | VStr _ => build_message lim v = Raise TypeError
  end.
Proof. destruct v; reflexivity. Qed.

Lemma send_mqtt_message_spec (w : world) (v : value) (s : state) :
  send_post w v s (send_mqtt_message w v s).
Proof.
  change (wp (send_mqtt_message w v) (send_post w v s) s).
  unfold send_mqtt_message.
  wp_step idtac.
  wp_step ltac:(leaf_with ltac:(splits; auto with trace; lia)).
  wp_step idtac. wp_step idtac.
  wp_step ltac:(leaf_with ltac:(splits; auto with trace; lia)).
  pose proof (build_message_cases 210 v) as Hb.
  destruct v as [z|str].
  2:{ rewrite Hb. apply wp_lift. cbn [wp_then].
      leaf_with ltac:(splits; auto with trace; try lia). }
  rewrite Hb. set (msg := [("limit", VInt 210); _; _]) in *.
  wp_step idtac.
  unfold connect.
  destruct (broker_reachable w) eqn:Hr.
  2:{ repeat wp_step ltac:(leaf_with ltac:(splits; auto with trace; lia)).
      apply wp_lift. cbn [wp_then].
      leaf_with ltac:(splits; auto with trace; lia). }
  assert (Hexp : send_expected w (VInt z)
                 = Connect "localhost" :: session (net_events w) "car/bmw/fuel_load" (dumps msg)).
  { unfold send_expected. now rewrite Hb, Hr. }
  repeat wp_step ltac:(leaf_with ltac:(splits; rewrite ?Hexp; auto with trace; lia)).
  match goal with
  | |- wp _ _ ?st => set (s1 := st)
  end.
  assert (Hex1 : extends s s1 [Connect "localhost"; Print "Connecting..."])
    by (subst s1; solve_extends).
  assert (Htk1 : (ticks s <= ticks s1)%nat) by (subst s1; cbn; lia).
  assert (L : loop_post w "car/bmw/fuel_load" (dumps msg) (net_events w) s1
                (loop_forever w (net_events w) s1)).
  { apply loop_forever_spec; subst s1; cbn; [reflexivity | reflexivity | discriminate]. }
  clearbody s1.
  apply (wp_conseq _ _ _ _ L).
  intros [o s2] (l & Hex & Htk & Hpre & Hout). cbn [fst snd] in *.
  exists ([Connect "localhost"; Print "Connecting..."] ++ l)%list.
  cbn [fst snd]. rewrite Hexp. splits.
  - eapply extends_trans; eauto.
  - lia.
  - rewrite mqtt_actions_app. cbn [mqtt_actions filter is_mqtt List.app].
    now apply prefix_of_cons.
  - rewrite mqtt_actions_app. cbn [mqtt_actions filter is_mqtt List.app].
    destruct o as [[]|e|].
    + destruct Hout as [Hl Hc]. splits; auto. now rewrite <- Hl.
    + destruct Hout as [-> Hd]. exact Hd.
    + exact Hout.
Qed.

Lemma expected_reads (w : world) (path : string) (v : value) :
  reads w path v -> expected w path = send_expected w v.
Proof. intros (rows & F & I). unfold expected. now rewrite F, I. Qed.

Lemma main_try_spec (w : world) (path : string) (s : state) :
  main_try_post w path s (main_try w path s).
Proof.
  change (wp (main_try w path) (main_try_post w path s) s).
  unfold main_try. apply wp_bind.
  apply (wp_conseq _ _ _ _ (read_value_from_file_spec w path s)).
  intros [o s1] (Htr & Hcl & Htk & Hout). cbn [fst snd] in *.
  assert (Hex : extends s s1 []) by (unfold extends; now rewrite List.app_nil_r).
  destruct o as [v|e|]; cbn [wp_then].
  - (* a value was read *)
    assert (Hv : reads w path v) by exact Hout.
    rewrite (expected_reads w path v Hv) || idtac.
    apply wp_bind. apply wp_stmt.
    { intros D. apply hit_delivered in D.
      cbn [wp_then]. exists []. cbn [fst snd]. splits; auto with trace.
      cbn [ticks bump]. lia. }
    apply wp_emit. cbn [wp_then].
    set (s2 := log (Print ("Read:  " ++ py_str v)) (bump s1)).
    assert (Hex2 : extends s s2 [Print ("Read:  " ++ py_str v)]).
    { subst s2. unfold extends in *. cbn [trace log bump]. now rewrite Htr. }
    assert (Htk2 : (ticks s <= ticks s2)%nat) by (subst s2; cbn; lia).
    clearbody s2.
    apply (wp_conseq _ _ _ _ (send_mqtt_message_spec w v s2)).
    intros [o s3] (l & Hex3 & Htk3 & Hpre & Hout3). cbn [fst snd] in *.
    exists ([Print ("Read:  " ++ py_str v)] ++ l)%list. cbn [fst snd].
    rewrite (expected_reads w path v Hv).
    rewrite mqtt_actions_app. cbn [mqtt_actions filter is_mqtt List.app].
    splits.
    + exact (extends_trans _ _ _ [_] l Hex2 Hex3).
    + lia.
    + exact Hpre.
    + destruct o as [[]|e|].
      * exists v. destruct Hout3 as (? & ? & ?). auto.
      * destruct e; try contradiction; eauto.
      * exists v. destruct Hout3 as (? & ?). auto.
  - (* reading raised *)
    exists []. cbn [fst snd]. splits; auto with trace.
    destruct e; auto;
      destruct Hout as (rows & F & I);
      destruct (iloc_cases rows (now_month w - 1) 5) as [[v' I']|I'];
      congruence.
  - contradiction.
Qed.

Lemma wp_try (body handler : M unit) (catches : exn -> bool) Q s :
  wp body (fun r => match r with
                    | (Raise e, s') => if catches e then wp handler Q s' else Q (Raise e, s')
                    | _ => Q r
                    end) s ->
  wp (try_except body catches handler) Q s.
Proof.
  unfold wp, try_except. destruct (body s) as [[a|e|] s']; auto.
  destruct (catches e); auto.
Qed.

Lemma delivered_early (w : world) (s : state) :
  delivered w s -> (ticks s <= 3)%nat ->
  exists k, interrupt_at w = Some k /\ (k < 3)%nat.
Proof.
  unfold delivered. destruct (interrupt_at w) as [k|]; [|contradiction].
  intros H1 H2. exists k. split; [reflexivity | lia].
Qed.

Lemma run_spec (w : world) : run_post w (run w).
Proof.
  change (wp (main w) (run_post w) init).
  unfold main. fold (file_path_of w).
  assert (E : forall s, (ticks s <= 3)%nat -> trace s = [] -> delivered w s ->
                        run_post w (Raise KeyboardInterrupt, s)).
  { intros s K T D. unfold run_post. cbn [fst snd]. rewrite T. split.
    - apply prefix_of_nil.
    - now apply delivered_early with s. }
  wp_step idtac. wp_step ltac:(apply E; cbn; auto; lia).
  wp_step idtac. wp_step idtac. wp_step ltac:(apply E; cbn; auto; lia).
  wp_step idtac. wp_step idtac.
  apply wp_stmt.
  { intros D. apply hit_delivered in D. cbn [wp_then]. apply E; cbn; auto. }
  apply wp_emit. cbn [wp_then].
  set (s0 := log (Print (file_path_of w)) (bump (bump (bump init)))).
  apply wp_try.
  apply (wp_conseq _ _ _ _ (main_try_spec w (file_path_of w) s0)).
  intros [o s1] (l & Hex & Htk & Hpre & Hout). cbn [fst snd] in *.
  assert (Htr : trace s1 = (Print (file_path_of w) :: l)) by exact Hex.
  assert (Hm : mqtt_actions (trace s1) = mqtt_actions l) by (now rewrite Htr).
  destruct o as [[]|e|].
  - unfold run_post. cbn [fst snd]. rewrite Hm. split; [exact Hpre|].
    left. exact Hout.
  - destruct e; cbn [is_keyboard_interrupt exn_eqb];
      try (unfold run_post; cbn [fst snd]; rewrite Hm; split; [exact Hpre | exact Hout]).
    (* the interrupt is caught *)
    apply wp_stmt.
    { intros D. exfalso.
      unfold delivered in Hout. rewrite D in Hout. lia. }
    apply wp_emit. unfold run_post. cbn [fst snd trace log bump].
    rewrite mqtt_actions_app, Hm. cbn [mqtt_actions filter is_mqtt].
    rewrite List.app_nil_r. split; [exact Hpre|].
    right. split.
    + unfold delivered in *. destruct (interrupt_at w); [cbn; lia | contradiction].
    + eexists. reflexivity.
  - unfold run_post. cbn [fst snd]. rewrite Hm. split; [exact Hpre | exact Hout].
Qed.

(** ** What a run publishes *)

Lemma publishes_app (l1 l2 : list action) :
  publishes (l1 ++ l2)%list = (publishes l1 ++ publishes l2)%list.
Proof.
  induction l1 as [|a l1 IH]; [reflexivity|].
  destruct a; cbn [publishes List.app]; now rewrite ?IH.
Qed.

Lemma publishes_mqtt_actions (tr : list action) :
  publishes (mqtt_actions tr) = publishes tr.
Proof.
  induction tr as [|a tr IH]; [reflexivity|].
  destruct a; cbn [mqtt_actions filter is_mqtt publishes]; fold (mqtt_actions tr);
    now rewrite ?IH.
Qed.

Lemma publishes_prefix (tr full : list action) :
  prefix_of (mqtt_actions tr) full -> prefix_of (publishes tr) (publishes full).
Proof.
  intros [rest H]. exists (publishes rest).
  now rewrite <- H, publishes_app, publishes_mqtt_actions.
Qed.

Lemma session_publishes (evs : list net_event) (t m : string) :
  prefix_of (publishes (session evs t m)) [(t, m)].
Proof.
  unfold session. destruct (first_connack evs); cbn [publishes]; auto with trace.
Qed.

Lemma prefix_of_trans {A : Type} (a b c : list A) :
  prefix_of a b -> prefix_of b c -> prefix_of a c.
Proof.
  intros [r1 H1] [r2 H2]. exists (r1 ++ r2)%list.
  now rewrite List.app_assoc, H1.
Qed.

Lemma prefix_of_singleton {A : Type} (l : list A) (x : A) :
  prefix_of l [x] -> l = [] \/ l = [x].
Proof.
  intros [r H]. destruct l as [|y l]; [now left|].
  right. injection H as -> H. apply app_eq_nil in H. now destruct H as [-> _].
Qed.

(** Whatever a run publishes is the serialised message of the value it
    read, on the topic of the script; and it publishes at most once. *)
Lemma run_publishes (w : world) :
  publishes (trace (snd (run w))) = [] \/
  exists v msg,
    reads w (file_path_of w) v /\ build_message 210 v = Ok msg /\
    publishes (trace (snd (run w))) = [("car/bmw/fuel_load", dumps msg)].
Proof.
  destruct (run_spec w) as [Hpre _].
  apply publishes_prefix in Hpre.
  unfold expected in Hpre.
  destruct (excel_files w (file_path_of w)) as [rows|] eqn:F;
    [|left; now apply prefix_of_nil_inv].
  destruct (iloc rows (now_month w - 1) 5) as [v| |] eqn:I;
    try (left; now apply prefix_of_nil_inv).
  unfold send_expected in Hpre.
  destruct (build_message 210 v) as [msg| |] eqn:B;
    try (left; now apply prefix_of_nil_inv).
  destruct (broker_reachable w);
    [|left; now apply prefix_of_nil_inv].
  cbn [publishes] in Hpre.
  pose proof (prefix_of_trans _ _ _ Hpre
                (session_publishes (net_events w) "car/bmw/fuel_load" (dumps msg))) as H.
  apply prefix_of_singleton in H. destruct H as [H|H]; [now left|].
  right. exists v, msg. splits; auto. now exists rows.
Qed.

Lemma reads_unique (w : world) (path : string) (v v' : value) :
  reads w path v -> reads w path v' -> v = v'.
Proof. intros (r & F & I) (r' & F' & I'). congruence. Qed.

(** ** The message, the payload and the run *)






Lemma py_index_nth {A : Type} (l : list A) (i : Z) (x : A) :
  0 <= i -> nth_error l (Z.to_nat i) = Some x -> py_index l i = Ok x.
Proof.
  intros Hi Hn. unfold py_index.
  assert (Hlt : (Z.to_nat i < List.length l)%nat)
    by (apply nth_error_Some; congruence).
  destruct (Z.ltb_spec i 0); [lia|].
  destruct (Z.leb_spec 0 i); [|lia].
  destruct (Z.ltb_spec i (Z.of_nat (List.length l))); [|lia].
  cbn [andb]. now rewrite Hn.
Qed.

Lemma no_interrupt_stmt {A : Type} (w : world) (c : M A) (s : state) :
  interrupt_at w = None -> stmt w c s = c (bump s).
Proof. intros H. rewrite stmt_run, H. reflexivity. Qed.

(** C2: for every current month [m] in 1..12, [read_value_from_file]
    takes the rows of the sheet as they are (no header row), reads the
    cell at row index [m - 1] and column index 5, and returns its content;
    it changes neither the trace nor the client. *)
Theorem read_value_row_column (w : world) (path : string) (s : state)
    (m : Z) (rows : list (list value)) (row : list value) (cell : value) :
  interrupt_at w = None ->
  now_month w = m -> 1 <= m <= 12 ->
  excel_files w path = Some rows ->
  nth_error rows (Z.to_nat (m - 1)) = Some row ->
  nth_error row 5 = Some cell ->
  read_excel w path None s = (Ok rows, s) /\
  iloc rows (m - 1) 5 = Ok cell /\
  read_value_from_file w path s = (Ok cell, bump (bump (bump (bump (bump s))))).
Proof.
  intros Hi Hm Hrange Hf Hrow Hcell.
  assert (I : iloc rows (m - 1) 5 = Ok cell).
  { unfold iloc. rewrite (py_index_nth rows (m - 1) row) by (auto; lia).
    now apply py_index_nth. }
  splits.
  - unfold read_excel. now rewrite Hf.
  - exact I.
  - unfold read_value_from_file, bind.
    rewrite !(no_interrupt_stmt w) by exact Hi. cbn [ret].
    rewrite !(no_interrupt_stmt w) by exact Hi. cbn [ret].
    rewrite !(no_interrupt_stmt w) by exact Hi. cbn [ret].
    rewrite !(no_interrupt_stmt w) by exact Hi.
    unfold read_excel. rewrite Hf. cbn [ret].
    rewrite !(no_interrupt_stmt w) by exact Hi.
    unfold lift. now rewrite Hm, I.
Qed.

Lemma read_value_row_column_witness :
  read_excel w0 (file_path_of w0) None init = (Ok mar_sheet, init) /\
  iloc mar_sheet (3 - 1) 5 = Ok (VInt 120) /\
  read_value_from_file w0 (file_path_of w0) init
  = (Ok (VInt 120), bump (bump (bump (bump (bump init))))).
Proof.
  apply (read_value_row_column w0 (file_path_of w0) init 3 mar_sheet
           [VInt 0; VInt 0; VInt 0; VInt 0; VInt 0; VInt 120] (VInt 120));
    try reflexivity.
  lia.
Defined.





















Lemma late_interrupt (w : world) (n : nat) :
  (forall k, interrupt_at w = Some k -> (3 <= k)%nat) ->
  (n < 3)%nat ->
  opt_nat_eqb (interrupt_at w) n = false.
Proof.
  intros H Hn. destruct (interrupt_at w) as [k|] eqn:E; [|reflexivity].
  specialize (H k eq_refl). cbn. apply Nat.eqb_neq. lia.
Qed.



Ltac interrupt_cases fin :=
  repeat (rewrite ?stmt_run;
          cbn [fst snd bump print emit ticks trace mqttc lift publish disconnect
               bind get_client set_client];
          match goal with
          | |- context [opt_nat_eqb ?o ?n] => destruct (opt_nat_eqb o n)
          end;
          cbn [fst snd bump print emit ticks trace mqttc lift publish disconnect
               bind get_client set_client];
          try solve [fin]).

(** C8: the callback does the same for every reason code, those of a
    refused connection included: the outcome, the MQTT actions and the
    client it leaves do not depend on the code; and when nothing
    interrupts it, it publishes [userdata[1]] to [userdata[0]] and then
    disconnects, the reason code showing only in the first line it prints. *)
Theorem on_connect_ignores_reason_code (w : world) (userdata : list string)
    (rc1 rc2 : reason_code) (s : state) :
  (fst (on_connect w userdata rc1 s) = fst (on_connect w userdata rc2 s) /\
   mqtt_actions (trace (snd (on_connect w userdata rc1 s)))
   = mqtt_actions (trace (snd (on_connect w userdata rc2 s))) /\
   mqttc (snd (on_connect w userdata rc1 s)) = mqttc (snd (on_connect w userdata rc2 s))) /\
  (forall t m,
     py_index userdata 0 = Ok t ->
     py_index userdata 1 = Ok m ->
     interrupt_at w = None ->
     on_connect w userdata rc1 s = (Ok tt, after_on_connect rc1 t m s)).
Proof.
  split.
  - unfold on_connect, bind.
    destruct (py_index userdata 0) as [t| |];
      destruct (py_index userdata 1) as [m| |];
      interrupt_cases ltac:(splits; rewrite ?mqtt_actions_app; reflexivity).
  - intros t m Ht Hm Hi.
    unfold on_connect, bind.
    rewrite !(no_interrupt_stmt w) by exact Hi.
    unfold print at 1. cbn [emit].
    rewrite !(no_interrupt_stmt w) by exact Hi.
    rewrite Ht, Hm. unfold lift, publish. cbn [emit].
    rewrite !(no_interrupt_stmt w) by exact Hi.
    unfold print at 1. cbn [emit].
    rewrite !(no_interrupt_stmt w) by exact Hi.
    unfold disconnect, bind, get_client, set_client. cbn [emit].
    rewrite !(no_interrupt_stmt w) by exact Hi.
    unfold print, emit, after_on_connect, bump.
    cbn [ticks trace mqttc cl_on_connect cl_userdata].
    rewrite <- !List.app_assoc. reflexivity.
Qed.

Lemma on_connect_ignores_reason_code_witness :
  on_connect w0 ["car/bmw/fuel_load"; march_spaced] rc_not_authorized init
  = (Ok tt, after_on_connect rc_not_authorized "car/bmw/fuel_load" march_spaced init).
Proof.
  exact (proj2 (on_connect_ignores_reason_code w0 ["car/bmw/fuel_load"; march_spaced]
                  rc_not_authorized rc_success init)
           "car/bmw/fuel_load" march_spaced eq_refl eq_refl eq_refl).
Defined.

(** C10: two runs with the same current month and the same content of the
    file they read, in worlds that may differ in everything else (home
    directory, broker, interrupts), read the same cell value and publish
    the same payload to the same topic. *)
Theorem run_deterministic (w1 w2 : world) :
  now_month w1 = now_month w2 ->
  excel_files w1 (file_path_of w1) = excel_files w2 (file_path_of w2) ->
  (forall s1 s2 v1 v2,
     fst (read_value_from_file w1 (file_path_of w1) s1) = Ok v1 ->
     fst (read_value_from_file w2 (file_path_of w2) s2) = Ok v2 ->
     v1 = v2) /\
  (forall p1 p2,
     In p1 (publishes (trace (snd (run w1)))) ->
     In p2 (publishes (trace (snd (run w2)))) ->
     p1 = p2).
Proof.
  intros Hm Hf.
  assert (R : forall v1 v2, reads w1 (file_path_of w1) v1 ->
                            reads w2 (file_path_of w2) v2 -> v1 = v2).
  { intros v1 v2 (r1 & F1 & I1) (r2 & F2 & I2).
    rewrite Hf, F2 in F1. injection F1 as <-.
    rewrite Hm, I2 in I1. congruence. }
  split.
  - intros s1 s2 v1 v2 H1 H2. apply R.
    + pose proof (read_value_from_file_spec w1 (file_path_of w1) s1) as (_ & _ & _ & P).
      now rewrite H1 in P.
    + pose proof (read_value_from_file_spec w2 (file_path_of w2) s2) as (_ & _ & _ & P).
      now rewrite H2 in P.
  - intros p1 p2 H1 H2.
    destruct (run_publishes w1) as [E1|(v1 & m1 & R1 & B1 & E1)];
      rewrite E1 in H1; [contradiction|].
    destruct (run_publishes w2) as [E2|(v2 & m2 & R2 & B2 & E2)];
      rewrite E2 in H2; [contradiction|].
    destruct H1 as [<-|[]]. destruct H2 as [<-|[]].
    pose proof (R v1 v2 R1 R2) as <-.
    congruence.
Qed.

Lemma run_deterministic_witness :
  (forall s1 s2 v1 v2,
     fst (read_value_from_file w0 (file_path_of w0) s1) = Ok v1 ->
     fst (read_value_from_file w_refused (file_path_of w_refused) s2) = Ok v2 ->
     v1 = v2) /\
  (forall p1 p2,
     In p1 (publishes (trace (snd (run w0)))) ->
     In p2 (publishes (trace (snd (run w_refused)))) ->
     p1 = p2).
Proof. exact (run_deterministic w0 w_refused eq_refl eq_refl). Defined.

(** ** Runs without a Ctrl-C *)

Lemma run_after_prelude (w : world) :
  (forall k, interrupt_at w = Some k -> (3 <= k)%nat) ->
  run w = try_except (main_try w (file_path_of w)) is_keyboard_interrupt
            (stmt w (print "Process interrupted by user")) (after_prelude w).
Proof.
  intros Hlate. unfold run, main. fold (file_path_of w).
  unfold bind.
  rewrite stmt_run, (late_interrupt w _ Hlate) by (cbn; lia). cbn [ret].
  rewrite stmt_run, (late_interrupt w _ Hlate) by (cbn; lia). cbn [ret].
  rewrite stmt_run, (late_interrupt w _ Hlate) by (cbn; lia).
  reflexivity.
Qed.

Lemma no_interrupt_late (w : world) :
  interrupt_at w = None -> forall k, interrupt_at w = Some k -> (3 <= k)%nat.
Proof. intros H k E. congruence. Qed.

(** Without a Ctrl-C the run is the [try] body of [main], unless the body
    raises [KeyboardInterrupt], which it then cannot. *)
Lemma run_quiet (w : world) :
  interrupt_at w = None ->
  run w = main_try w (file_path_of w) (after_prelude w).
Proof.
  intros Hi. rewrite (run_after_prelude w (no_interrupt_late w Hi)).
  unfold try_except.
  pose proof (main_try_spec w (file_path_of w) (after_prelude w)) as S.
  destruct (main_try w (file_path_of w) (after_prelude w)) as [[[]|e|] s1];
    try reflexivity.
  destruct e; try reflexivity.
  destruct S as (l & _ & _ & _ & D). cbn [fst snd] in D.
  unfold delivered in D. now rewrite Hi in D.
Qed.

Lemma read_quiet_missing (w : world) (path : string) (s : state) :
  interrupt_at w = None ->
  excel_files w path = None ->
  read_value_from_file w path s = (Raise FileNotFoundError, bump (bump (bump (bump s)))).
Proof.
  intros Hi Hf. unfold read_value_from_file, bind.
  rewrite !(no_interrupt_stmt w) by exact Hi. cbn [ret].
  rewrite !(no_interrupt_stmt w) by exact Hi. cbn [ret].
  rewrite !(no_interrupt_stmt w) by exact Hi. cbn [ret].
  rewrite !(no_interrupt_stmt w) by exact Hi.
  unfold read_excel. now rewrite Hf.
Qed.


(** X1: when the spreadsheet is not on disk and nothing interrupts, the
    run ends in [FileNotFoundError], propagated out of [main], after
    printing the file path and nothing else. *)
Theorem missing_file_propagates (w : world) :
  interrupt_at w = None ->
  excel_files w (file_path_of w) = None ->
  fst (run w) = Raise FileNotFoundError /\
  trace (snd (run w)) = [Print (file_path_of w)].
Proof.
  intros Hi Hf. rewrite (run_quiet w Hi). unfold main_try, bind.
  rewrite (read_quiet_missing w _ _ Hi Hf). split; reflexivity.
Qed.

Lemma missing_file_propagates_witness :
  fst (run w_missing) = Raise FileNotFoundError /\
  trace (snd (run w_missing)) = [Print (file_path_of w_missing)].
Proof. exact (missing_file_propagates w_missing eq_refl eq_refl). Defined.






















(** ** A Ctrl-C that is still to come *)

Section Keeps.

Variable w : world.

Lemma keeps_ret {A : Type} (a : A) : keeps w (ret a).
Proof. intros s P. right. split; [discriminate | exact P]. Qed.

Lemma keeps_lift {A : Type} (o : outcome A) : o <> Blocked -> keeps w (lift o).
Proof. intros H s P. right. split; [exact H | exact P]. Qed.

Lemma keeps_raise {A : Type} (e : exn) : keeps w (@raise A e).
Proof. apply keeps_lift. discriminate. Qed.

Lemma keeps_emit (a : action) : keeps w (emit a).
Proof. intros s P. right. split; [discriminate | exact P]. Qed.

Lemma keeps_get_client : keeps w get_client.
Proof. intros s P. right. split; [discriminate | exact P]. Qed.

Lemma keeps_set_client (c : client) : keeps w (set_client c).
Proof. intros s P. right. split; [discriminate | exact P]. Qed.

Lemma keeps_bind {A B : Type} (c : M A) (k : A -> M B) :
  keeps w c -> (forall a, keeps w (k a)) -> keeps w (bind c k).
Proof.
  intros Hc Hk s P. specialize (Hc s P). unfold bind, ends_or_pending in *.
  destruct (c s) as [[a|e|] s']; cbn [fst snd] in *.
  - destruct Hc as [Hc|[_ P']]; [discriminate|]. now apply Hk.
  - destruct Hc as [Hc|[_ P']].
    + left. congruence.
    + right. split; [discriminate | exact P'].
  - destruct Hc as [Hc|[Hc _]]; [discriminate | contradiction].
Qed.

Lemma keeps_stmt {A : Type} (c : M A) : keeps w c -> keeps w (stmt w c).
Proof.
  intros Hc s P. rewrite stmt_run.
  destruct (opt_nat_eqb (interrupt_at w) (ticks s)) eqn:E; [now left|].
  apply Hc. unfold pending in *.
  destruct (interrupt_at w) as [k|]; [|contradiction].
  cbn in E. apply Nat.eqb_neq in E. cbn [ticks bump]. lia.
Qed.

Lemma keeps_wait_forever : keeps w (wait_forever w).
Proof.
  intros s P. left. unfold wait_forever, pending in *.
  destruct (interrupt_at w) as [k|]; [|contradiction].
  apply Nat.leb_le in P. now rewrite P.
Qed.

Lemma py_index_not_blocked {A : Type} (l : list A) (i : Z) : py_index l i <> Blocked.
Proof. destruct (py_index_cases l i) as [[x ->]| ->]; discriminate. Qed.

Lemma iloc_not_blocked (df : dataframe) (r c : Z) : iloc df r c <> Blocked.
Proof. destruct (iloc_cases df r c) as [[x ->]| ->]; discriminate. Qed.

Lemma build_message_not_blocked (lim : Z) (v : value) : build_message lim v <> Blocked.
Proof. destruct v; discriminate. Qed.

Ltac keeps_go :=
  repeat first
    [ apply keeps_stmt
    | apply keeps_bind; [|intros ?]
    | apply keeps_ret
    | apply keeps_emit
    | apply keeps_get_client
    | apply keeps_set_client
    | apply keeps_raise
    | apply keeps_wait_forever
    | apply keeps_lift;
      first [ apply py_index_not_blocked | apply iloc_not_blocked
            | apply build_message_not_blocked ] ].

Lemma keeps_on_connect (userdata : list string) (rc : reason_code) :
  keeps w (on_connect w userdata rc).
Proof. unfold on_connect, print, publish, disconnect. keeps_go. Qed.

Lemma keeps_loop_forever (evs : list net_event) : keeps w (loop_forever w evs).
Proof.
  induction evs as [|ev evs IH]; cbn [loop_forever]; [apply keeps_wait_forever|].
  match goal with
  | |- keeps w (tick w ;; ?X) => change (tick w ;; X) with (stmt w X)
  end.
  apply keeps_stmt. apply keeps_bind.
  - destruct ev as [rc|]; [|apply keeps_ret].
    unfold mark_connected. keeps_go.
    + destruct (is_failure rc); keeps_go.
    + match goal with
      | |- keeps w (run_callback w ?cb _ _) => destruct cb as [[]|]
      end; [apply keeps_on_connect | apply keeps_ret].
  - intros _. apply keeps_bind; [apply keeps_get_client|].
    intros c. destruct (cl_state c); try exact IH. apply keeps_ret.
Qed.

Lemma keeps_read_value_from_file (path : string) :
  keeps w (read_value_from_file w path).
Proof.
  unfold read_value_from_file, read_excel. keeps_go.
  destruct (excel_files w path); keeps_go.
Qed.

Lemma keeps_send_mqtt_message (v : value) : keeps w (send_mqtt_message w v).
Proof.
  unfold send_mqtt_message, connect, print. keeps_go;
    try apply keeps_loop_forever.
  destruct (broker_reachable w); keeps_go.
Qed.

Lemma keeps_main_try (path : string) : keeps w (main_try w path).
Proof.
  unfold main_try.
  apply keeps_bind; [apply keeps_read_value_from_file|]. intros v.
  apply keeps_bind; [apply keeps_stmt, keeps_emit|]. intros _.
  apply keeps_send_mqtt_message.
Qed.

End Keeps.

Lemma run_with_interrupt (w : world) (k : nat) :
  interrupt_at w = Some k -> (3 <= k)%nat ->
  (exists s1, main_try w (file_path_of w) (after_prelude w) = (Raise KeyboardInterrupt, s1) /\
              run w = (Ok tt, log interrupted_notice (bump s1))) \/
  (run w = main_try w (file_path_of w) (after_prelude w) /\
   fst (run w) <> Blocked /\ fst (run w) <> Raise KeyboardInterrupt).
Proof.
  intros Hk Hge.
  assert (Hlate : forall k', interrupt_at w = Some k' -> (3 <= k')%nat)
    by (intros k' E; congruence).
  rewrite (run_after_prelude w Hlate). unfold try_except.
  assert (P : pending w (after_prelude w)) by (unfold pending; now rewrite Hk).
  pose proof (keeps_main_try w (file_path_of w) _ P) as K.
  pose proof (main_try_spec w (file_path_of w) (after_prelude w)) as S.
  destruct (main_try w (file_path_of w) (after_prelude w)) as [[[]|e|] s1];
    cbn [fst snd] in *.
  - right. splits; [reflexivity | discriminate | discriminate].
  - destruct e; cbn [is_keyboard_interrupt exn_eqb];
      try (right; splits; [reflexivity | discriminate | discriminate]).
    left. exists s1. split; [reflexivity|].
    destruct S as (l & _ & _ & _ & D).
    now rewrite stmt_run, (opt_nat_eqb_delivered w s1 s1 D) by lia.
  - destruct K as [K|[K _]]; [discriminate | contradiction].
Qed.

(** X7: a Ctrl-C that arrives at any time after the three statements
    before the [try] ends the run one way or another: the run never stays
    blocked in [loop_forever] and never lets the [KeyboardInterrupt]
    through. *)
Theorem pending_interrupt_ends_run (w : world) (k : nat) :
  interrupt_at w = Some k -> (3 <= k)%nat ->
  fst (run w) <> Blocked /\ fst (run w) <> Raise KeyboardInterrupt.
Proof.
  intros Hk Hge.
  destruct (run_with_interrupt w k Hk Hge) as [(s1 & _ & E)|(_ & H)]; [|exact H].
  rewrite E. split; discriminate.
Qed.

Lemma pending_interrupt_ends_run_witness :
  fst (run (w_silent (Some 40%nat))) <> Blocked /\
  fst (run (w_silent (Some 40%nat))) <> Raise KeyboardInterrupt.
Proof.
  apply (pending_interrupt_ends_run (w_silent (Some 40%nat)) 40%nat); [reflexivity | lia].
Defined.


(** ** The callback on short user data, and what a normal return means *)

Lemma short_userdata (userdata : list string) :
  (List.length userdata < 2)%nat ->
  py_index userdata 0 = Raise IndexError \/
  (exists t, py_index userdata 0 = Ok t) /\ py_index userdata 1 = Raise IndexError.
Proof.
  intros H. destruct userdata as [|t [|m rest]].
  - left. reflexivity.
  - right. split; [exists t|]; reflexivity.
  - cbn in H. lia.
Qed.

(** X9: a callback whose user data holds fewer than two items raises
    [IndexError] (or is cut short by a Ctrl-C) before it publishes
    anything: it performs no MQTT action, does not disconnect and leaves
    the client as it was. *)
Theorem on_connect_short_userdata (w : world) (userdata : list string)
    (rc : reason_code) (s : state) :
  (List.length userdata < 2)%nat ->
  (fst (on_connect w userdata rc s) = Raise IndexError \/
   fst (on_connect w userdata rc s) = Raise KeyboardInterrupt) /\
  mqtt_actions (trace (snd (on_connect w userdata rc s))) = mqtt_actions (trace s) /\
  mqttc (snd (on_connect w userdata rc s)) = mqttc s /\
  (interrupt_at w = None -> fst (on_connect w userdata rc s) = Raise IndexError).
Proof.
  intros Hlen. unfold on_connect, bind.
  destruct (short_userdata userdata Hlen) as [E0|[[t E0] E1]];
    rewrite E0; try rewrite E1;
    repeat (rewrite ?stmt_run;
            cbn [fst snd bump print emit ticks trace mqttc lift];
            match goal with
            | |- context [opt_nat_eqb ?o ?n] =>
                let E := fresh "E" in destruct (opt_nat_eqb o n) eqn:E
            end;
            cbn [fst snd bump print emit ticks trace mqttc lift]);
    splits; auto;
    try (rewrite ?mqtt_actions_app; cbn [mqtt_actions filter is_mqtt];
         now rewrite ?List.app_nil_r);
    intros Hi; rewrite Hi in *; discriminate.
Qed.

Lemma on_connect_short_userdata_witness :
  (fst (on_connect w0 ["car/bmw/fuel_load"] rc_success init) = Raise IndexError \/
   fst (on_connect w0 ["car/bmw/fuel_load"] rc_success init) = Raise KeyboardInterrupt) /\
  mqtt_actions (trace (snd (on_connect w0 ["car/bmw/fuel_load"] rc_success init)))
  = mqtt_actions (trace init) /\
  mqttc (snd (on_connect w0 ["car/bmw/fuel_load"] rc_success init)) = mqttc init /\
  (interrupt_at w0 = None ->
   fst (on_connect w0 ["car/bmw/fuel_load"] rc_success init) = Raise IndexError).
Proof.
  apply (on_connect_short_userdata w0 ["car/bmw/fuel_load"] rc_success init).
  cbn. lia.
Defined.
Lemma send_text_fails (w : world) (str : string) (s : state) :
  fst (send_mqtt_message w (VStr str) s) <> Ok tt.
Proof.
  change (wp (send_mqtt_message w (VStr str)) (fun r => fst r <> Ok tt) s).
  unfold send_mqtt_message.
  wp_step idtac. wp_step ltac:(cbn [fst]; discriminate).
  wp_step idtac. wp_step idtac. wp_step ltac:(cbn [fst]; discriminate).
  apply wp_lift. cbn [wp_then build_message py_sub fst]. discriminate.
Qed.

Lemma run_cases (w : world) :
  run w = try_except (main_try w (file_path_of w)) is_keyboard_interrupt
            (stmt w (print "Process interrupted by user")) (after_prelude w) \/
  fst (run w) = Raise KeyboardInterrupt.
Proof.
  unfold run, main. fold (file_path_of w). unfold bind.
  rewrite stmt_run.
  destruct (opt_nat_eqb (interrupt_at w) (ticks init)); [now right|]. cbn [ret].
  rewrite stmt_run.
  destruct (opt_nat_eqb (interrupt_at w) (ticks (bump init))); [now right|]. cbn [ret].
  rewrite stmt_run.
  destruct (opt_nat_eqb (interrupt_at w) (ticks (bump (bump init)))); [now right|].
  left. reflexivity.
Qed.

Lemma main_try_ok (w : world) (path : string) (s : state) :
  fst (main_try w path s) = Ok tt ->
  exists v s1, reads w path v /\ fst (send_mqtt_message w v s1) = Ok tt.
Proof.
  unfold main_try, bind.
  pose proof (read_value_from_file_spec w path s) as (_ & _ & _ & R).
  destruct (read_value_from_file w path s) as [[v|e|] s1]; cbn [fst snd] in *;
    try discriminate.
  rewrite stmt_run.
  destruct (opt_nat_eqb (interrupt_at w) (ticks s1)); [discriminate|].
  cbn [print emit]. intros H. eexists v, _. split; [exact R | exact H].
Qed.

(** X10: a run returns normally only after the client has disconnected,
    or after a caught Ctrl-C whose notice is then the last thing
    printed. *)
Theorem normal_return_after_disconnect (w : world) :
  fst (run w) = Ok tt ->
  In Disconnect (trace (snd (run w))) \/
  exists tr, trace (snd (run w)) = (tr ++ [interrupted_notice])%list.
Proof.
  intros H.
  destruct (run_spec w) as [_ Hout]. rewrite H in Hout.
  destruct Hout as [(v & Hr & Hm & Hc & Hb)|[_ Hn]]; [|right; exact Hn].
  destruct (run_cases w) as [E|E]; [|rewrite E in H; discriminate].
  unfold try_except in E.
  destruct (main_try w (file_path_of w) (after_prelude w)) as [[[]|e|] s1] eqn:MT.
  - left.
    assert (Hok : fst (main_try w (file_path_of w) (after_prelude w)) = Ok tt)
      by (now rewrite MT).
    destruct (main_try_ok w _ _ Hok) as (v' & s2 & Hr' & Hsend).
    pose proof (reads_unique _ _ _ _ Hr Hr') as <-.
    destruct v as [z|str]; [|now apply send_text_fails in Hsend].
    assert (Hin : In Disconnect (mqtt_actions (trace (snd (run w))))).
    { rewrite Hm. unfold send_expected.
      change (build_message 210 (VInt z))
        with (Ok [("limit", VInt 210); ("left", VInt (210 - z)); ("amount", VInt z)]).
      cbv beta iota. rewrite Hb. unfold session.
      destruct (first_connack (net_events w)); [|contradiction].
      cbn. auto. }
    unfold mqtt_actions in Hin. now apply filter_In in Hin.
  - destruct e; cbn [is_keyboard_interrupt exn_eqb] in E;
      try (rewrite E in H; discriminate).
    rewrite stmt_run in E.
    destruct (opt_nat_eqb (interrupt_at w) (ticks s1));
      rewrite E in *; [discriminate|].
    right. eexists. reflexivity.
  - rewrite E in H. discriminate.
Qed.

Lemma normal_return_after_disconnect_witness :
  fst (run w0) = Ok tt /\
  (In Disconnect (trace (snd (run w0))) \/
   exists tr, trace (snd (run w0)) = (tr ++ [interrupted_notice])%list).
Proof. split; [reflexivity | exact (normal_return_after_disconnect w0 eq_refl)]. Defined.
